(** * frontend/src/vite-env.d.ts

    The file is an ambient TypeScript declaration file: a triple-slash
    reference to the type library [vite/client] followed by two
    [declare interface] statements.  It has no executable statement.

    The development below embeds
    - the declarations themselves, as syntax (section Syntax);
    - what the declarations mean to the type checker: every interface name
      denotes one shape, the merge of all its declarations (section
      Elaboration);
    - the run-time objects the shapes describe and the two operations client
      code has on them, reading and assigning a property (section Values);
    - what the file contributes to the emitted program (section Emit). *)

From Stdlib Require Import String.
From stdpp Require Import gmap strings list fin_maps option.

#[local] Open Scope string_scope.
#[local] Set Warnings "-register-all".

(** ** Syntax *)

(** The type expressions that occur in the file ([string], a reference to a
    named interface) and in the libraries it is merged with. *)
Inductive ty :=
  | TString
  | TBoolean
  | TNumber
  | TAny
  | TRef (name : string).

(** [readonly name?: type] *)
Record PropertySignature := {
  prop_name : string;
  prop_readonly : bool;
  prop_optional : bool;
  prop_type : ty
}.

(** [readonly [key: string]: type] *)
Record IndexSignature := {
  index_readonly : bool;
  index_type : ty
}.

Inductive member :=
  | Property (p : PropertySignature)
  | Index (i : IndexSignature).

(** [declare interface name { members }] *)
Record InterfaceDeclaration := {
  interface_name : string;
  interface_members : list member
}.

Inductive statement :=
  | ReferenceTypes (types : string)
  | DeclareInterface (d : InterfaceDeclaration).

#[global] Instance ty_eq_dec : EqDecision ty.
Proof. solve_decision. Defined.
#[global] Instance PropertySignature_eq_dec : EqDecision PropertySignature.
Proof. solve_decision. Defined.
#[global] Instance IndexSignature_eq_dec : EqDecision IndexSignature.
Proof. solve_decision. Defined.

(** Line 6: [readonly VITE_API_URL?: string;] *)
Definition VITE_API_URL : PropertySignature :=
  {| prop_name := "VITE_API_URL";
     prop_readonly := true;
     prop_optional := true;
     prop_type := TString |}.

(** Lines 5-8. *)
Definition ImportMetaEnv : InterfaceDeclaration :=
  {| interface_name := "ImportMetaEnv";
     interface_members := [Property VITE_API_URL] |}.

(** Line 11: [readonly env: ImportMetaEnv;] *)
Definition env : PropertySignature :=
  {| prop_name := "env";
     prop_readonly := true;
     prop_optional := false;
     prop_type := TRef "ImportMetaEnv" |}.

(** Lines 10-12. *)
Definition ImportMeta : InterfaceDeclaration :=
  {| interface_name := "ImportMeta";
     interface_members := [Property env] |}.

(** The whole file, in source order. *)
Definition vite_env_d_ts : list statement :=
  [ ReferenceTypes "vite/client";
    DeclareInterface ImportMetaEnv;
    DeclareInterface ImportMeta ].

(** ** Elaboration: from declarations to shapes *)

(** What an interface name denotes: its named properties and at most one string
    index signature. *)
Record shape := {
  props : gmap string PropertySignature;
  index : option IndexSignature
}.

Definition empty_shape : shape := {| props := ∅; index := None |}.

(** Left-to-right fold that stops at the first failure. *)
Fixpoint fold_option {A B} (f : A → B → option A) (a : A) (l : list B) : option A :=
  match l with
  | [] => Some a
  | b :: l' => a' ← f a b; fold_option f a' l'
  end.

(** One member of a declaration body.  Inside one body a repeated property
    name or a second index signature is a duplicate-identifier error. *)
Definition add_member (sh : shape) (m : member) : option shape :=
  match m with
  | Property p =>
      match props sh !! prop_name p with
      | Some _ => None
      | None => Some {| props := <[prop_name p := p]> (props sh); index := index sh |}
      end
  | Index i =>
      match index sh with
      | Some _ => None
      | None => Some {| props := props sh; index := Some i |}
      end
  end.

(** The shape one declaration states on its own. *)
Definition declared_shape (d : InterfaceDeclaration) : option shape :=
  fold_option add_member empty_shape (interface_members d).

(** Two declarations of one interface agree when every property both of them
    name has the same type and the same modifiers in both. *)
Definition props_agree (a b : gmap string PropertySignature) : Prop :=
  map_Forall (λ k p, a !! k = None ∨ a !! k = Some p) b.

#[global] Instance props_agree_dec a b : Decision (props_agree a b).
Proof. unfold props_agree. apply _. Defined.

(** Declaration merging of interfaces: the union of the members; a property
    declared twice must agree, and two index signatures are a duplicate. *)
Definition merge_shape (a b : shape) : option shape :=
  if decide (props_agree (props a) (props b)) then
    match index a, index b with
    | Some _, Some _ => None
    | ia, ib => Some {| props := props a ∪ props b; index := ia ∪ ib |}
    end
  else None.

(** The shapes lines 5-8 and lines 10-12 state. *)
Definition ImportMetaEnv_shape : shape :=
  {| props := {[ "VITE_API_URL" := VITE_API_URL ]}; index := None |}.

Definition ImportMeta_shape : shape :=
  {| props := {[ "env" := env ]}; index := None |}.

(** The interfaces in scope, by name. *)
Abbreviation interfaces := (gmap string shape).

(** A declaration adds a new interface or merges into the one of that name. *)
Definition declare (Σ : interfaces) (d : InterfaceDeclaration) : option interfaces :=
  sh ← declared_shape d;
  match Σ !! interface_name d with
  | None => Some (<[interface_name d := sh]> Σ)
  | Some old => merged ← merge_shape old sh; Some (<[interface_name d := merged]> Σ)
  end.

(** A type library is the list of interface declarations it puts in scope. *)
Abbreviation library := (list InterfaceDeclaration).

(** [resolve] is the build's module resolution for [reference types]
    directives.  A directive that resolves brings the library's declarations
    into scope; one that does not contributes nothing. *)
Definition elaborate_statement (resolve : string → option library)
    (Σ : interfaces) (st : statement) : option interfaces :=
  match st with
  | ReferenceTypes name =>
      match resolve name with
      | Some lib => fold_option declare Σ lib
      | None => Some Σ
      end
  | DeclareInterface d => declare Σ d
  end.

Definition elaborate (resolve : string → option library) (file : list statement)
    : option interfaces :=
  fold_option (elaborate_statement resolve) ∅ file.

(** The build in which [vite/client] is not found. *)
Definition unresolved : string → option library := λ _, None.

(** ** Values: the objects the shapes describe *)

(** Run-time values.  An object is its own properties, by name. *)
Inductive value :=
  | VUndefined
  | VString (s : string)
  | VBoolean (b : bool)
  | VNumber (n : Z)
  | VObject (fields : gmap string value).

Definition is_undefined (v : value) : bool :=
  match v with VUndefined => true | _ => false end.

(** Every property that is not optional is there. *)
Definition required_present (sh : shape) (fields : gmap string value) : bool :=
  bool_decide (map_Forall (λ k p, prop_optional p = true ∨ is_Some (fields !! k)) (props sh)).

(** Conformance of a value to a type.  An object conforms to an interface when
    its required properties are present and every property it has is of the
    declared type (an optional one may also hold [undefined]); a property the
    interface does not name is checked against the index signature, when there
    is one, and is otherwise free. *)
Fixpoint has_type (Σ : interfaces) (v : value) (t : ty) {struct v} : bool :=
  match t with
  | TAny => true
  | TString => match v with VString _ => true | _ => false end
  | TBoolean => match v with VBoolean _ => true | _ => false end
  | TNumber => match v with VNumber _ => true | _ => false end
  | TRef name =>
      match v, Σ !! name with
      | VObject fields, Some sh =>
          required_present sh fields &&
          map_fold (λ k v' ok,
            ok && match props sh !! k with
                  | Some p => (prop_optional p && is_undefined v') || has_type Σ v' (prop_type p)
                  | None =>
                      match index sh with
                      | Some i => has_type Σ v' (index_type i)
                      | None => true
                      end
                  end) true fields
      | _, _ => false
      end
  end.

(** The check [has_type] makes of one property [k] holding [v']. *)
Definition field_ok (Σ : interfaces) (sh : shape) (k : string) (v' : value) : bool :=
  match props sh !! k with
  | Some p => (prop_optional p && is_undefined v') || has_type Σ v' (prop_type p)
  | None =>
      match index sh with
      | Some i => has_type Σ v' (index_type i)
      | None => true
      end
  end.

(** The property read [v.k] on an object: the value stored under [k], or
    [undefined] when the object has no such property.  [None] is a read from
    something that is not an object (from [undefined] it throws). *)
Definition get (v : value) (k : string) : option value :=
  match v with
  | VObject fields => Some (default VUndefined (fields !! k))
  | _ => None
  end.

(** What client code can do with an object: read a property or assign one. *)
Inductive operation :=
  | Read (k : string)
  | Assign (k : string) (v : value).

(** The operation's result and the object afterwards. *)
Definition exec (op : operation) (fields : gmap string value) : value * gmap string value :=
  match op with
  | Read k => (default VUndefined (fields !! k), fields)
  | Assign k v => (v, <[k := v]> fields)
  end.

(** The type checker on a property read: the static type of [e.k] and whether
    it includes [undefined], or [None] when the access is rejected because the
    shape has neither the property nor an index signature. *)
Definition check_read (sh : shape) (k : string) : option (ty * bool) :=
  match props sh !! k with
  | Some p => Some (prop_type p, prop_optional p)
  | None => (λ i, (index_type i, false)) <$> index sh
  end.

(** Whether the type checker lets [e.k] be the target of an assignment: the
    property must exist (or fall under the index signature) and must not be
    [readonly]. *)
Definition writable (sh : shape) (k : string) : bool :=
  match props sh !! k with
  | Some p => negb (prop_readonly p)
  | None =>
      match index sh with
      | Some i => negb (index_readonly i)
      | None => false
      end
  end.

(** The type checker on an operation against the shape of the object.  A read
    needs the property (or an index signature); an assignment needs a writable
    target and a right-hand side of the property's type. *)
Definition check (Σ : interfaces) (sh : shape) (op : operation) : bool :=
  match op with
  | Read k => bool_decide (is_Some (check_read sh k))
  | Assign k v => writable sh k && field_ok Σ sh k v
  end.

(** ** Emit: what the file contributes to the running program *)

(** The emitted program, as far as its effects go: a statement writes a
    binding of the program state or does something observable outside it. *)
Inductive js_statement :=
  | JsAssign (x : string) (v : value)
  | JsEffect (event : string).

Record state := {
  store : gmap string value;
  trace : list string
}.

Definition run_statement (σ : state) (s : js_statement) : state :=
  match s with
  | JsAssign x v => {| store := <[x := v]> (store σ); trace := trace σ |}
  | JsEffect e => {| store := store σ; trace := trace σ ++ [e] |}
  end.

Definition run (program : list js_statement) (σ : state) : state :=
  fold_left run_statement program σ.

(** Both kinds of statement of the file are erased by the compiler: a
    [reference] directive is a comment and a [declare interface] is a type. *)
Definition emit_statement (st : statement) : list js_statement :=
  match st with
  | ReferenceTypes _ => []
  | DeclareInterface _ => []
  end.

Definition emit (file : list statement) : list js_statement :=
  concat (map emit_statement file).

(** ** A client library to merge with *)

(** The two interfaces as the client types of the build tool state them: the
    environment is an open shape (a string index signature of type [any]) with
    the built-in keys; of [ImportMeta], the members that are plain data.  The
    library is not part of the repository; it is the input at which the
    general statements below are instantiated. *)
Definition builtin (name : string) (t : ty) : member :=
  Property {| prop_name := name; prop_readonly := false; prop_optional := false; prop_type := t |}.

Definition client_ImportMetaEnv : InterfaceDeclaration :=
  {| interface_name := "ImportMetaEnv";
     interface_members :=
       [ Index {| index_readonly := false; index_type := TAny |};
         builtin "BASE_URL" TString;
         builtin "MODE" TString;
         builtin "DEV" TBoolean;
         builtin "PROD" TBoolean;
         builtin "SSR" TBoolean ] |}.

Definition client_ImportMeta : InterfaceDeclaration :=
  {| interface_name := "ImportMeta";
     interface_members := [ builtin "url" TString; Property env ] |}.

Definition client : library := [client_ImportMetaEnv; client_ImportMeta].

(** The build in which [vite/client] is found. *)
Definition resolved : string → option library :=
  λ name, if decide (name = "vite/client") then Some client else None.

(** What the client library alone puts in scope. *)
Definition client_interfaces : interfaces :=
  default ∅ (fold_option declare ∅ client).

Definition client_env_shape : shape :=
  default empty_shape (declared_shape client_ImportMetaEnv).

(** ** Sample inputs *)

(** The interfaces in scope when the directive does not resolve, and when it
    resolves to [client]. *)
Definition standalone : interfaces :=
  {[ "ImportMetaEnv" := ImportMetaEnv_shape; "ImportMeta" := ImportMeta_shape ]}.

Definition merged : interfaces :=
  default ∅ (elaborate resolved vite_env_d_ts).

(** [import.meta] of a build that sets the variable, of one that leaves it
    unset, and of a build with the client library's built-in keys. *)
Definition env_set : value :=
  VObject {[ "VITE_API_URL" := VString "http://localhost:8000" ]}.

Definition meta_set : value := VObject {[ "env" := env_set ]}.

Definition env_unset : value := VObject ∅.

Definition meta_unset : value := VObject {[ "env" := env_unset ]}.

Definition env_client : value :=
  VObject {[ "BASE_URL" := VString "/";
             "MODE" := VString "development";
             "DEV" := VBoolean true;
             "PROD" := VBoolean false;
             "SSR" := VBoolean false;
             "VITE_API_URL" := VString "http://localhost:8000" ]}.

Definition meta_client : value :=
  VObject {[ "url" := VString "http://localhost:5173/src/main.tsx";
             "env" := env_client ]}.

(** ** Chained reads and a conflicting library *)

(** The read [v.k1.k2...]: each step reads from what the step before gave, and
    the whole read fails as soon as one step reads from a non-object. *)
Definition read_path (v : value) (path : list string) : option value :=
  fold_option get v path.

(** A library that declares [VITE_API_URL] itself, required and writable. *)
Definition conflicting_client : library :=
  [ {| interface_name := "ImportMetaEnv";
       interface_members := [ builtin "VITE_API_URL" TString ] |} ].

Definition resolved_conflicting : string → option library :=
  λ name, if decide (name = "vite/client") then Some conflicting_client else None.

(** ** Inherited members and runs of operations *)

(** The members every object type has from the global interface [Object]: the
    checker accepts a read of one of them on any interface. *)
Definition Object_members : list string :=
  [ "constructor"; "toString"; "toLocaleString"; "valueOf";
    "hasOwnProperty"; "isPrototypeOf"; "propertyIsEnumerable" ].

(** The checker's verdict on the read [e.k], for [e] of the given shape: the
    shape has the property or an index signature, or [k] is a member of
    [Object]. *)
Definition read_accepted (sh : shape) (k : string) : bool :=
  bool_decide (is_Some (check_read sh k)) || bool_decide (k ∈ Object_members).

(** The object after a run of operations, one after the other. *)
Definition exec_all (ops : list operation) (fields : gmap string value)
    : gmap string value :=
  fold_left (λ f op, (exec op f).2) ops fields.

(** * Properties *)

(** ** Folding and merging *)

Lemma fold_option_app {A B} (f : A → B → option A) (a : A) (l1 l2 : list B) :
  fold_option f a (l1 ++ l2) = fold_option f a l1 ≫= λ a', fold_option f a' l2.
Proof.
  revert a. induction l1 as [|b l1 IH]; intros a; simpl; [done|].
  destruct (f a b) as [a'|]; simpl; [apply IH | done].
Qed.

Lemma map_fold_andb_true {A} (f : string → A → bool) (m : gmap string A) :
  map_fold (λ k x ok, ok && f k x) true m = true ↔ map_Forall (λ k x, f k x = true) m.
Proof.
  apply (map_fold_weak_ind (λ r m, r = true ↔ map_Forall (λ k x, f k x = true) m)).
  - split; [intros _; apply map_Forall_empty | done].
  - intros k x m' r Hk IH. rewrite andb_true_iff, map_Forall_insert by done.
    rewrite IH. tauto.
Qed.

Lemma merge_shape_Some a b c :
  merge_shape a b = Some c →
  props_agree (props a) (props b) ∧
  props c = props a ∪ props b ∧
  index c = index a ∪ index b.
Proof.
  unfold merge_shape. case_decide; [|done].
  destruct (index a), (index b); intros; simplify_eq/=; done.
Qed.

Lemma merge_shape_lookup_l a b c k p :
  merge_shape a b = Some c → props a !! k = Some p → props c !! k = Some p.
Proof.
  intros (_ & -> & _)%merge_shape_Some Hk. by apply lookup_union_Some_l.
Qed.

Lemma merge_shape_lookup_r a b c k p :
  merge_shape a b = Some c → props b !! k = Some p → props c !! k = Some p.
Proof.
  intros (Hagree & -> & _)%merge_shape_Some Hk.
  destruct (Hagree k p Hk) as [Ha|Ha].
  - rewrite lookup_union_r; done.
  - by apply lookup_union_Some_l.
Qed.

(** Merging in a declaration whose members are all there already, and which
    has no index signature, changes nothing. *)
Lemma merge_shape_absorb c b :
  (∀ k p, props b !! k = Some p → props c !! k = Some p) →
  index b = None →
  merge_shape c b = Some c.
Proof.
  intros Hsub Hidx. unfold merge_shape. rewrite decide_True.
  - rewrite Hidx. destruct c as [pc ic]; simpl in *.
    assert (pc ∪ props b = pc) as ->.
    { apply map_eq; intros k. rewrite lookup_union.
      destruct (props b !! k) as [p|] eqn:Hk.
      - rewrite (Hsub k p Hk). done.
      - by rewrite (right_id None _). }
    by destruct ic.
  - intros k p Hk. right. by apply Hsub.
Qed.

Lemma merge_shape_idemp sh : index sh = None → merge_shape sh sh = Some sh.
Proof. intros. by apply merge_shape_absorb. Qed.

Lemma merge_shape_index_twice a b i j :
  index a = Some i → index b = Some j → merge_shape a b = None.
Proof. intros Ha Hb. unfold merge_shape. rewrite Ha, Hb. by case_decide. Qed.

(** ** What a declaration does to the interfaces in scope *)

Lemma declare_other Σ Σ' d name :
  declare Σ d = Some Σ' → name ≠ interface_name d → Σ' !! name = Σ !! name.
Proof.
  unfold declare. intros H Hne.
  destruct (declared_shape d) as [sh|]; simpl in H; [|done].
  destruct (Σ !! interface_name d) as [old|].
  - destruct (merge_shape old sh) as [merged|]; simplify_eq/=.
    by rewrite lookup_insert_ne.
  - simplify_eq/=. by rewrite lookup_insert_ne.
Qed.

Lemma declare_same Σ Σ' d :
  declare Σ d = Some Σ' →
  ∃ own sh, declared_shape d = Some own ∧ Σ' !! interface_name d = Some sh ∧
    match Σ !! interface_name d with
    | None => sh = own
    | Some old => merge_shape old own = Some sh
    end.
Proof.
  unfold declare. intros H.
  destruct (declared_shape d) as [own|]; simpl in H; [|done].
  destruct (Σ !! interface_name d) as [old|] eqn:Hold.
  - destruct (merge_shape old own) as [merged|] eqn:Hm; simplify_eq/=.
    exists own, merged. by rewrite lookup_insert_eq.
  - simplify_eq/=. exists own, own. by rewrite lookup_insert_eq.
Qed.

(** Every member a declaration states is a member of the interface after it. *)
Lemma declare_member Σ Σ' d own k p :
  declare Σ d = Some Σ' → declared_shape d = Some own → props own !! k = Some p →
  ∃ sh, Σ' !! interface_name d = Some sh ∧ props sh !! k = Some p.
Proof.
  intros (own' & sh & Hown & Hsh & Hold)%declare_same Hown' Hk.
  assert (own' = own) as -> by congruence.
  exists sh. split; [done|].
  destruct (Σ !! interface_name d) as [old|].
  - by eapply merge_shape_lookup_r.
  - by subst.
Qed.

(** Declaring again what is in scope already is a no-op. *)
Lemma declare_again Σ d own sh :
  declared_shape d = Some own → index own = None →
  Σ !! interface_name d = Some sh →
  (∀ k p, props own !! k = Some p → props sh !! k = Some p) →
  declare Σ d = Some Σ.
Proof.
  intros Hown Hidx Hsh Hsub. unfold declare. rewrite Hown; simpl. rewrite Hsh.
  rewrite (merge_shape_absorb sh own) by done. simpl.
  by rewrite insert_id.
Qed.

(** ** Conformance *)

Lemma has_type_ref Σ v name :
  has_type Σ v (TRef name) = true ↔
  ∃ fields sh, v = VObject fields ∧ Σ !! name = Some sh ∧
    required_present sh fields = true ∧
    map_Forall (λ k v', field_ok Σ sh k v' = true) fields.
Proof.
  split.
  - destruct v as [| | | |fields]; simpl; try done.
    destruct (Σ !! name) as [sh|]; [|done].
    rewrite andb_true_iff. intros [Hreq Hall].
    exists fields, sh. repeat split; [done|].
    by apply map_fold_andb_true in Hall.
  - intros (fields & sh & -> & Hsh & Hreq & Hall). simpl. rewrite Hsh.
    apply andb_true_iff. split; [done|].
    by apply (map_fold_andb_true (field_ok Σ sh)).
Qed.

Lemma required_present_lookup sh (fields : gmap string value) k p :
  required_present sh fields = true → props sh !! k = Some p →
  prop_optional p = false → is_Some (fields !! k).
Proof.
  unfold required_present. intros Hreq%bool_decide_eq_true Hk Hopt.
  destruct (Hreq k p Hk) as [?|?]; [congruence | done].
Qed.

(** What a conforming object holds under a declared property. *)
Lemma conforming_field Σ sh (fields : gmap string value) k p v :
  map_Forall (λ k v', field_ok Σ sh k v' = true) fields →
  props sh !! k = Some p → fields !! k = Some v →
  (prop_optional p = true ∧ v = VUndefined) ∨ has_type Σ v (prop_type p) = true.
Proof.
  intros Hall Hk Hv. specialize (Hall k v Hv). unfold field_ok in Hall.
  rewrite Hk in Hall. apply orb_true_iff in Hall as [Hu|Ht]; [left|by right].
  apply andb_true_iff in Hu as [? Hu]. by destruct v.
Qed.

Lemma has_type_string Σ v : has_type Σ v TString = true → ∃ s, v = VString s.
Proof. destruct v; simpl; try done. eauto. Qed.

(** ** The file, elaborated *)

Lemma declared_ImportMetaEnv : declared_shape ImportMetaEnv = Some ImportMetaEnv_shape.
Proof. reflexivity. Qed.

Lemma declared_ImportMeta : declared_shape ImportMeta = Some ImportMeta_shape.
Proof. reflexivity. Qed.

Lemma ImportMetaEnv_shape_lookup k p :
  props ImportMetaEnv_shape !! k = Some p ↔ k = "VITE_API_URL" ∧ p = VITE_API_URL.
Proof. unfold ImportMetaEnv_shape; simpl. rewrite lookup_singleton_Some. split; intros []; split; congruence. Qed.

Lemma ImportMetaEnv_shape_own :
  props ImportMetaEnv_shape !! "VITE_API_URL" = Some VITE_API_URL.
Proof. apply lookup_singleton_eq. Qed.

Lemma ImportMeta_shape_own : props ImportMeta_shape !! "env" = Some env.
Proof. apply lookup_singleton_eq. Qed.

Lemma ImportMeta_shape_lookup k p :
  props ImportMeta_shape !! k = Some p ↔ k = "env" ∧ p = env.
Proof. unfold ImportMeta_shape; simpl. rewrite lookup_singleton_Some. split; intros []; split; congruence. Qed.

(** The three statements of the file, one after the other. *)
Lemma elaborate_file resolve Σ :
  elaborate resolve vite_env_d_ts = Some Σ ↔
  ∃ Σ0 Σ1,
    elaborate_statement resolve ∅ (ReferenceTypes "vite/client") = Some Σ0 ∧
    declare Σ0 ImportMetaEnv = Some Σ1 ∧
    declare Σ1 ImportMeta = Some Σ.
Proof.
  unfold elaborate, vite_env_d_ts. cbn [fold_option].
  set (r := elaborate_statement resolve ∅ (ReferenceTypes "vite/client")).
  split.
  - destruct r as [Σ0|]; cbn [mbind option_bind elaborate_statement]; [|done].
    destruct (declare Σ0 ImportMetaEnv) as [Σ1|] eqn:H1;
      cbn [mbind option_bind elaborate_statement]; [|done].
    destruct (declare Σ1 ImportMeta) as [Σ2|] eqn:H2;
      cbn [mbind option_bind]; [|done].
    intros [= <-]. eauto.
  - intros (Σ0 & Σ1 & -> & H1 & H2). cbn [mbind option_bind elaborate_statement].
    rewrite H1. cbn [mbind option_bind elaborate_statement]. rewrite H2. done.
Qed.

Section Elaborated.
Context (resolve : string → option library) (Σ : interfaces).
Hypothesis HΣ : elaborate resolve vite_env_d_ts = Some Σ.

Lemma elaborated_ImportMetaEnv :
  ∃ sh, Σ !! "ImportMetaEnv" = Some sh ∧ props sh !! "VITE_API_URL" = Some VITE_API_URL.
Proof using HΣ.
  apply elaborate_file in HΣ as (Σ0 & Σ1 & _ & H1 & H2).
  destruct (declare_member Σ0 Σ1 ImportMetaEnv ImportMetaEnv_shape "VITE_API_URL" VITE_API_URL)
    as (sh & Hsh & Hk); [done | done | exact ImportMetaEnv_shape_own |].
  exists sh. split; [|done].
  rewrite (declare_other Σ1 Σ ImportMeta) by done. exact Hsh.
Qed.

Lemma elaborated_ImportMeta :
  ∃ sh, Σ !! "ImportMeta" = Some sh ∧ props sh !! "env" = Some env.
Proof using HΣ.
  apply elaborate_file in HΣ as (Σ0 & Σ1 & _ & H1 & H2).
  apply (declare_member Σ1 Σ ImportMeta ImportMeta_shape "env" env);
    [done | done | exact ImportMeta_shape_own].
Qed.

End Elaborated.

Lemma elaborate_standalone : elaborate unresolved vite_env_d_ts = Some standalone.
Proof. vm_compute. reflexivity. Qed.

Lemma elaborate_merged : elaborate resolved vite_env_d_ts = Some merged.
Proof. vm_compute. reflexivity. Qed.

(** ** Reading the environment *)

Section Reading.
Context (resolve : string → option library) (Σ : interfaces).
Hypothesis HΣ : elaborate resolve vite_env_d_ts = Some Σ.

(** What a conforming environment object holds under [VITE_API_URL]. *)
Lemma conforming_VITE_API_URL fields v :
  has_type Σ (VObject fields) (TRef "ImportMetaEnv") = true →
  fields !! "VITE_API_URL" = Some v →
  v = VUndefined ∨ ∃ s, v = VString s.
Proof using HΣ.
  intros (fields' & sh & [= <-] & Hsh & _ & Hall)%has_type_ref Hv.
  destruct elaborated_ImportMetaEnv with (1 := HΣ) as (sh' & Hsh' & Hk).
  assert (sh' = sh) as -> by congruence.
  destruct (conforming_field Σ sh fields _ _ v Hall Hk Hv) as [[_ ->]|Hs].
  - by left.
  - right. by apply has_type_string in Hs.
Qed.

(** C1. For every value [e] that conforms to the environment interface,
    whatever library the file is merged with: [e] is an object; reading
    [VITE_API_URL] from it succeeds and yields [undefined] or a string; when
    the object has no such property the read yields [undefined] (nothing is
    substituted); when it holds a string the read yields that very string. *)
Theorem read_VITE_API_URL (e : value) :
  has_type Σ e (TRef "ImportMetaEnv") = true →
  ∃ fields, e = VObject fields ∧
    (get e "VITE_API_URL" = Some VUndefined ∨
     ∃ s, get e "VITE_API_URL" = Some (VString s)) ∧
    (fields !! "VITE_API_URL" = None → get e "VITE_API_URL" = Some VUndefined) ∧
    (∀ s, fields !! "VITE_API_URL" = Some (VString s) →
          get e "VITE_API_URL" = Some (VString s)).
Proof using HΣ.
  intros He. pose proof He as (fields & sh & -> & _)%has_type_ref.
  exists fields. split; [done|]. simpl. repeat split.
  - destruct (fields !! "VITE_API_URL") as [v|] eqn:Hv; simpl; [|by left].
    destruct (conforming_VITE_API_URL fields v He Hv) as [->|[s ->]]; eauto.
  - by intros ->.
  - by intros s ->.
Qed.

End Reading.

Lemma read_VITE_API_URL_witness :
  ∃ fields, env_set = VObject fields ∧
    (get env_set "VITE_API_URL" = Some VUndefined ∨
     ∃ s, get env_set "VITE_API_URL" = Some (VString s)) ∧
    (fields !! "VITE_API_URL" = None → get env_set "VITE_API_URL" = Some VUndefined) ∧
    (∀ s, fields !! "VITE_API_URL" = Some (VString s) →
          get env_set "VITE_API_URL" = Some (VString s)).
Proof.
  apply (read_VITE_API_URL unresolved standalone).
  - vm_compute. reflexivity.
  - vm_compute. reflexivity.
Defined.

(** ** The shape this file declares *)

Lemma conforming_is_object Σ v name :
  has_type Σ v (TRef name) = true → ∃ fields, v = VObject fields.
Proof. intros (fields & _ & -> & _)%has_type_ref. eauto. Qed.

Lemma get_object fields k : get (VObject fields) k = Some (default VUndefined (fields !! k)).
Proof. reflexivity. Qed.

(** C2. The interface [ImportMetaEnv] as lines 5-8 declare it has exactly one
    key, [VITE_API_URL]; that key is optional and of type [string]; there is no
    index signature and no other key.  It is the whole environment shape when
    nothing is merged in. *)
Theorem ImportMetaEnv_exactly_one_key :
  ∃ sh, declared_shape ImportMetaEnv = Some sh ∧
    dom (props sh) = {[ "VITE_API_URL" ]} ∧
    size (props sh) = 1 ∧
    (∃ p, props sh !! "VITE_API_URL" = Some p ∧
          prop_optional p = true ∧ prop_type p = TString) ∧
    index sh = None ∧
    (∀ k, k ≠ "VITE_API_URL" → props sh !! k = None) ∧
    elaborate unresolved vite_env_d_ts ≫= (.!! "ImportMetaEnv") = Some sh.
Proof.
  exists ImportMetaEnv_shape. split; [apply declared_ImportMetaEnv|].
  unfold ImportMetaEnv_shape; cbn [props index]. split_and!.
  - apply dom_singleton_L.
  - apply map_size_singleton.
  - exists VITE_API_URL. by rewrite lookup_singleton_eq.
  - reflexivity.
  - intros k Hk. by apply lookup_singleton_ne.
  - rewrite elaborate_standalone. reflexivity.
Qed.

(** ** Merging with the client library *)

Lemma check_read_open sh i k : index sh = Some i → is_Some (check_read sh k).
Proof.
  intros Hi. unfold check_read. destruct (props sh !! k); [done|].
  rewrite Hi. done.
Qed.

(** C4. When the directive on line 1 resolves to a library that declares
    [ImportMetaEnv] with shape [base], the environment interface in scope is
    the merge of [base] with the declaration of lines 5-8: it has every key of
    [base], and [VITE_API_URL], and no other; its index signature is the one
    of [base], so if [base] has one the shape is open and the type checker
    accepts a read of any key.  The file adds that one key and nothing else:
    every other interface of the library is in scope unchanged. *)
Theorem augmentation_merges (resolve : string → option library) (lib : library)
    (Σlib Σ : interfaces) (base : shape) :
  resolve "vite/client" = Some lib →
  fold_option declare ∅ lib = Some Σlib →
  Σlib !! "ImportMetaEnv" = Some base →
  elaborate resolve vite_env_d_ts = Some Σ →
  ∃ sh, Σ !! "ImportMetaEnv" = Some sh ∧
    merge_shape base ImportMetaEnv_shape = Some sh ∧
    (∀ k p, props base !! k = Some p → props sh !! k = Some p) ∧
    props sh !! "VITE_API_URL" = Some VITE_API_URL ∧
    dom (props sh) = dom (props base) ∪ {[ "VITE_API_URL" ]} ∧
    index sh = index base ∧
    (is_Some (index base) → ∀ k, is_Some (check_read sh k)) ∧
    (∀ name, name ≠ "ImportMetaEnv" → name ≠ "ImportMeta" → Σ !! name = Σlib !! name).
Proof.
  intros Hres Hlib Hbase (Σ0 & Σ1 & H0 & H1 & H2)%elaborate_file.
  cbn [elaborate_statement] in H0. rewrite Hres, Hlib in H0.
  injection H0 as <-.
  destruct (declare_same _ _ _ H1) as (own & sh & Hown & Hsh & Hmerge).
  rewrite declared_ImportMetaEnv in Hown. injection Hown as <-.
  change (interface_name ImportMetaEnv) with "ImportMetaEnv" in Hsh, Hmerge.
  rewrite Hbase in Hmerge.
  destruct (merge_shape_Some _ _ _ Hmerge) as (_ & Hprops & Hindex).
  exists sh. split_and!.
  - by rewrite (declare_other Σ1 Σ ImportMeta).
  - exact Hmerge.
  - intros k p. by apply (merge_shape_lookup_l base ImportMetaEnv_shape sh).
  - apply (merge_shape_lookup_r base ImportMetaEnv_shape sh); [exact Hmerge|].
    exact ImportMetaEnv_shape_own.
  - rewrite Hprops, dom_union_L. unfold ImportMetaEnv_shape; cbn [props].
    by rewrite dom_singleton_L.
  - rewrite Hindex. by destruct (index base).
  - intros [i Hi] k. apply (check_read_open sh i).
    by rewrite Hindex, Hi.
  - intros name Hne1 Hne2.
    rewrite (declare_other Σ1 Σ ImportMeta) by done.
    by rewrite (declare_other Σlib Σ1 ImportMetaEnv).
Qed.

Lemma augmentation_merges_witness :
  ∃ sh, merged !! "ImportMetaEnv" = Some sh ∧
    merge_shape client_env_shape ImportMetaEnv_shape = Some sh ∧
    (∀ k p, props client_env_shape !! k = Some p → props sh !! k = Some p) ∧
    props sh !! "VITE_API_URL" = Some VITE_API_URL ∧
    dom (props sh) = dom (props client_env_shape) ∪ {[ "VITE_API_URL" ]} ∧
    index sh = index client_env_shape ∧
    (is_Some (index client_env_shape) → ∀ k, is_Some (check_read sh k)) ∧
    (∀ name, name ≠ "ImportMetaEnv" → name ≠ "ImportMeta" →
       merged !! name = client_interfaces !! name).
Proof.
  apply (augmentation_merges resolved client client_interfaces merged client_env_shape).
  - reflexivity.
  - vm_compute. reflexivity.
  - vm_compute. reflexivity.
  - vm_compute. reflexivity.
Defined.

(** At the client library the merged shape is open where the declared one is
    closed: a key nobody declares reads as [any] and can be assigned, a
    built-in key has its type, and [VITE_API_URL] stays read-only. *)
Example merged_is_open :
  ∃ sh, merged !! "ImportMetaEnv" = Some sh ∧
    check_read sh "VITE_SECRET" = Some (TAny, false) ∧
    check_read sh "MODE" = Some (TString, false) ∧
    check_read sh "VITE_API_URL" = Some (TString, true) ∧
    writable sh "VITE_SECRET" = true ∧
    writable sh "VITE_API_URL" = false.
Proof.
  exists (default empty_shape (merged !! "ImportMetaEnv")).
  vm_compute. done.
Qed.

(** In the merged interfaces the checker does accept assignments: to a key
    under the index signature and to a built-in key, if the value is of the
    key's type. *)
Example merged_accepts_assignments :
  ∃ she shm, merged !! "ImportMetaEnv" = Some she ∧ merged !! "ImportMeta" = Some shm ∧
    check merged she (Assign "VITE_SECRET" (VNumber 1)) = true ∧
    check merged she (Assign "MODE" (VString "test")) = true ∧
    check merged she (Assign "MODE" (VNumber 1)) = false ∧
    check merged shm (Assign "url" (VString "/")) = true ∧
    check merged shm (Assign "env" env_client) = false.
Proof.
  exists (default empty_shape (merged !! "ImportMetaEnv")),
         (default empty_shape (merged !! "ImportMeta")).
  vm_compute. done.
Qed.

(** ** Operations: frame and preservation *)

(** An operation the checker accepts leaves a read-only property as it was. *)
Lemma accepted_keeps_readonly Σ sh op (fields : gmap string value) k p :
  props sh !! k = Some p → prop_readonly p = true → check Σ sh op = true →
  (exec op fields).2 !! k = fields !! k.
Proof.
  intros Hk Hro Hop. destruct op as [k'|k' v]; [reflexivity|].
  cbn [exec snd]. destruct (decide (k' = k)) as [->|Hne].
  - cbn [check] in Hop. apply andb_true_iff in Hop as [Hw _].
    unfold writable in Hw. rewrite Hk, Hro in Hw. discriminate.
  - by rewrite lookup_insert_ne.
Qed.

(** A shape without index signature whose properties are all read-only admits
    no assignment at all. *)
Lemma readonly_shape_frame Σ sh op (fields : gmap string value) :
  index sh = None → map_Forall (λ _ p, prop_readonly p = true) (props sh) →
  check Σ sh op = true → (exec op fields).2 = fields.
Proof.
  intros Hidx Hall Hop. destruct op as [k|k v]; [reflexivity|].
  cbn [check] in Hop. apply andb_true_iff in Hop as [Hw _]. unfold writable in Hw.
  destruct (props sh !! k) as [p|] eqn:Hk.
  - rewrite (Hall k p Hk) in Hw. discriminate.
  - rewrite Hidx in Hw. discriminate.
Qed.

(** Preservation: an accepted operation on a conforming object leaves a
    conforming object. *)
Lemma exec_preserves Σ name sh op (fields : gmap string value) :
  Σ !! name = Some sh →
  has_type Σ (VObject fields) (TRef name) = true →
  check Σ sh op = true →
  has_type Σ (VObject (exec op fields).2) (TRef name) = true.
Proof.
  intros Hsh Hty Hop. destruct op as [k|k v]; [exact Hty|].
  cbn [check] in Hop. apply andb_true_iff in Hop as [_ Hok].
  apply has_type_ref in Hty as (fields' & sh' & [= <-] & Hsh' & Hreq & Hall).
  assert (sh' = sh) as -> by congruence.
  apply has_type_ref. exists (<[k:=v]> fields), sh. split_and!; [done | done | |].
  - apply bool_decide_eq_true. apply bool_decide_eq_true in Hreq.
    intros k' p Hk'. destruct (Hreq k' p Hk') as [Hopt|Hs]; [by left|right].
    apply lookup_insert_is_Some. destruct (decide (k = k')); [by left | by right].
  - by apply map_Forall_insert_2.
Qed.

(** ** The [env] property of [import.meta] *)

Section Meta.
Context (resolve : string → option library) (Σ : interfaces).
Hypothesis HΣ : elaborate resolve vite_env_d_ts = Some Σ.

Lemma conforming_env fields :
  has_type Σ (VObject fields) (TRef "ImportMeta") = true →
  ∃ e, fields !! "env" = Some e ∧ has_type Σ e (TRef "ImportMetaEnv") = true.
Proof using HΣ.
  intros (fields' & sh & [= <-] & Hsh & Hreq & Hall)%has_type_ref.
  destruct elaborated_ImportMeta with (1 := HΣ) as (sh' & Hsh' & Hk).
  assert (sh' = sh) as -> by congruence.
  destruct (required_present_lookup sh fields "env" env Hreq Hk eq_refl) as [e He].
  exists e. split; [done|].
  destruct (conforming_field Σ sh fields _ _ e Hall Hk He) as [[Hopt _]|Ht]; [done|].
  exact Ht.
Qed.

(** C5. Every value [m] that conforms to [ImportMeta] is an object with a
    property [env]; reading it yields a value [e] that conforms to
    [ImportMetaEnv].  No operation produces a non-conforming [env]: an
    operation the type checker accepts on [m] leaves [env] holding [e] and [m]
    conforming, and one it accepts on [e] leaves [e] conforming. *)
Theorem ImportMeta_env_conforms (m : value) :
  has_type Σ m (TRef "ImportMeta") = true →
  ∃ fields e, m = VObject fields ∧
    get m "env" = Some e ∧
    has_type Σ e (TRef "ImportMetaEnv") = true ∧
    (∀ sh op, Σ !! "ImportMeta" = Some sh → check Σ sh op = true →
       get (VObject (exec op fields).2) "env" = Some e ∧
       has_type Σ (VObject (exec op fields).2) (TRef "ImportMeta") = true) ∧
    (∀ sh op fields', e = VObject fields' →
       Σ !! "ImportMetaEnv" = Some sh → check Σ sh op = true →
       has_type Σ (VObject (exec op fields').2) (TRef "ImportMetaEnv") = true).
Proof using HΣ.
  intros Hm. destruct (conforming_is_object _ _ _ Hm) as [fields ->].
  destruct (conforming_env fields Hm) as (e & He & Hte).
  exists fields, e. split_and!; [done | by rewrite get_object, He | done | |].
  - intros sh op Hsh Hop. split.
    + rewrite get_object.
      destruct elaborated_ImportMeta with (1 := HΣ) as (sh' & Hsh' & Hk).
      assert (sh' = sh) as -> by congruence.
      by rewrite (accepted_keeps_readonly Σ sh op fields "env" env), He.
    + by apply (exec_preserves Σ "ImportMeta" sh).
  - intros sh op fields' -> Hsh Hop. by apply (exec_preserves Σ "ImportMetaEnv" sh).
Qed.

(** C9. [env] is declared without [?]: in a value that conforms to
    [ImportMeta] the property is present and holds an object, so reading it
    never yields [undefined], and a further read from what it holds cannot
    fail; [VITE_API_URL] inside may still be absent, as in [meta_unset]. *)
Theorem env_always_present (m : value) :
  has_type Σ m (TRef "ImportMeta") = true →
  (∃ sh p, Σ !! "ImportMeta" = Some sh ∧ props sh !! "env" = Some p ∧
           prop_optional p = false) ∧
  (∃ fields, get m "env" = Some (VObject fields) ∧
             is_Some (get (VObject fields) "VITE_API_URL")) ∧
  has_type standalone meta_unset (TRef "ImportMeta") = true ∧
  get meta_unset "env" = Some env_unset ∧
  get env_unset "VITE_API_URL" = Some VUndefined.
Proof using HΣ.
  intros Hm. split_and!.
  - destruct elaborated_ImportMeta with (1 := HΣ) as (sh & Hsh & Hk). by exists sh, env.
  - destruct (conforming_is_object _ _ _ Hm) as [fields ->].
    destruct (conforming_env fields Hm) as (e & He & Hte).
    destruct (conforming_is_object _ _ _ Hte) as [fields' ->].
    exists fields'. by rewrite get_object, He.
  - vm_compute. reflexivity.
  - reflexivity.
  - reflexivity.
Qed.

(** C8. Both properties are [readonly], whatever the file is merged with: the
    type checker rejects every assignment to [VITE_API_URL] and to [env], an
    operation it accepts leaves the property as it was, and a read leaves the
    whole object as it was.  On the shapes the file declares no assignment is
    accepted at all, so every accepted operation leaves the object as it was. *)
Theorem fields_are_readonly :
  ∃ she shm, Σ !! "ImportMetaEnv" = Some she ∧ Σ !! "ImportMeta" = Some shm ∧
    (∃ p, props she !! "VITE_API_URL" = Some p ∧ prop_readonly p = true) ∧
    (∃ p, props shm !! "env" = Some p ∧ prop_readonly p = true) ∧
    (∀ v, check Σ she (Assign "VITE_API_URL" v) = false) ∧
    (∀ v, check Σ shm (Assign "env" v) = false) ∧
    (∀ op fields, check Σ she op = true →
       (exec op fields).2 !! "VITE_API_URL" = fields !! "VITE_API_URL") ∧
    (∀ op fields, check Σ shm op = true →
       (exec op fields).2 !! "env" = fields !! "env") ∧
    (∀ k fields, (exec (Read k) fields).2 = fields) ∧
    (∀ op fields, check Σ ImportMetaEnv_shape op = true → (exec op fields).2 = fields) ∧
    (∀ op fields, check Σ ImportMeta_shape op = true → (exec op fields).2 = fields).
Proof using HΣ.
  destruct elaborated_ImportMetaEnv with (1 := HΣ) as (she & Hshe & Hke).
  destruct elaborated_ImportMeta with (1 := HΣ) as (shm & Hshm & Hkm).
  exists she, shm. split_and!; try done.
  - by exists VITE_API_URL.
  - by exists env.
  - intros v. cbn [check]. unfold writable. by rewrite Hke.
  - intros v. cbn [check]. unfold writable. by rewrite Hkm.
  - intros op fields. by apply (accepted_keeps_readonly Σ she op fields _ VITE_API_URL).
  - intros op fields. by apply (accepted_keeps_readonly Σ shm op fields _ env).
  - intros op fields. apply readonly_shape_frame; [done|].
    intros k p [_ ->]%ImportMetaEnv_shape_lookup. done.
  - intros op fields. apply readonly_shape_frame; [done|].
    intros k p [_ ->]%ImportMeta_shape_lookup. done.
Qed.

(** C6. Declaring the two interfaces a second time conflicts with nothing and
    changes nothing: each declared shape merged with itself is itself, and the
    file followed by a repetition of its declarations elaborates to the same
    interfaces as the file. *)
Theorem redeclaration_is_idempotent :
  merge_shape ImportMetaEnv_shape ImportMetaEnv_shape = Some ImportMetaEnv_shape ∧
  merge_shape ImportMeta_shape ImportMeta_shape = Some ImportMeta_shape ∧
  elaborate resolve
    (vite_env_d_ts ++ [DeclareInterface ImportMetaEnv; DeclareInterface ImportMeta])
  = Some Σ.
Proof using HΣ.
  split_and!; [by apply merge_shape_idemp | by apply merge_shape_idemp |].
  unfold elaborate in *. rewrite fold_option_app, HΣ.
  cbn [mbind option_bind fold_option elaborate_statement].
  destruct elaborated_ImportMetaEnv with (1 := HΣ) as (she & Hshe & Hke).
  destruct elaborated_ImportMeta with (1 := HΣ) as (shm & Hshm & Hkm).
  rewrite (declare_again Σ ImportMetaEnv ImportMetaEnv_shape she); [|done..|].
  - cbn [mbind option_bind].
    rewrite (declare_again Σ ImportMeta ImportMeta_shape shm); [done..|].
    by intros k p [-> ->]%ImportMeta_shape_lookup.
  - by intros k p [-> ->]%ImportMetaEnv_shape_lookup.
Qed.

End Meta.

Lemma ImportMeta_env_conforms_witness :
  ∃ fields e, meta_client = VObject fields ∧
    get meta_client "env" = Some e ∧
    has_type merged e (TRef "ImportMetaEnv") = true ∧
    (∀ sh op, merged !! "ImportMeta" = Some sh → check merged sh op = true →
       get (VObject (exec op fields).2) "env" = Some e ∧
       has_type merged (VObject (exec op fields).2) (TRef "ImportMeta") = true) ∧
    (∀ sh op fields', e = VObject fields' →
       merged !! "ImportMetaEnv" = Some sh → check merged sh op = true →
       has_type merged (VObject (exec op fields').2) (TRef "ImportMetaEnv") = true).
Proof.
  apply (ImportMeta_env_conforms resolved merged).
  - exact elaborate_merged.
  - vm_compute. reflexivity.
Defined.

Lemma env_always_present_witness :
  (∃ sh p, standalone !! "ImportMeta" = Some sh ∧ props sh !! "env" = Some p ∧
           prop_optional p = false) ∧
  (∃ fields, get meta_set "env" = Some (VObject fields) ∧
             is_Some (get (VObject fields) "VITE_API_URL")) ∧
  has_type standalone meta_unset (TRef "ImportMeta") = true ∧
  get meta_unset "env" = Some env_unset ∧
  get env_unset "VITE_API_URL" = Some VUndefined.
Proof.
  apply (env_always_present unresolved standalone).
  - exact elaborate_standalone.
  - vm_compute. reflexivity.
Defined.

Lemma fields_are_readonly_witness :
  ∃ she shm, merged !! "ImportMetaEnv" = Some she ∧ merged !! "ImportMeta" = Some shm ∧
    (∃ p, props she !! "VITE_API_URL" = Some p ∧ prop_readonly p = true) ∧
    (∃ p, props shm !! "env" = Some p ∧ prop_readonly p = true) ∧
    (∀ v, check merged she (Assign "VITE_API_URL" v) = false) ∧
    (∀ v, check merged shm (Assign "env" v) = false) ∧
    (∀ op fields, check merged she op = true →
       (exec op fields).2 !! "VITE_API_URL" = fields !! "VITE_API_URL") ∧
    (∀ op fields, check merged shm op = true →
       (exec op fields).2 !! "env" = fields !! "env") ∧
    (∀ k fields, (exec (Read k) fields).2 = fields) ∧
    (∀ op fields, check merged ImportMetaEnv_shape op = true → (exec op fields).2 = fields) ∧
    (∀ op fields, check merged ImportMeta_shape op = true → (exec op fields).2 = fields).
Proof. apply (fields_are_readonly resolved merged). exact elaborate_merged. Defined.

Lemma redeclaration_is_idempotent_witness :
  merge_shape ImportMetaEnv_shape ImportMetaEnv_shape = Some ImportMetaEnv_shape ∧
  merge_shape ImportMeta_shape ImportMeta_shape = Some ImportMeta_shape ∧
  elaborate resolved
    (vite_env_d_ts ++ [DeclareInterface ImportMetaEnv; DeclareInterface ImportMeta])
  = Some merged.
Proof. apply (redeclaration_is_idempotent resolved merged). exact elaborate_merged. Defined.

(** Two index signatures do conflict: the open shape of the client library
    cannot be declared twice. *)
Example client_shape_not_idempotent :
  is_Some (index client_env_shape) ∧ merge_shape client_env_shape client_env_shape = None.
Proof.
  assert (is_Some (index client_env_shape)) as [i Hi] by (by eexists).
  split; [by exists i | by apply (merge_shape_index_twice _ _ i i)].
Qed.

(** ** Purity of reads *)



Section Purity.
Context (resolve : string → option library) (Σ : interfaces).
Hypothesis HΣ : elaborate resolve vite_env_d_ts = Some Σ.


End Purity.


(** The operations in between do change the object: in the merged build an
    assignment to a built-in key is accepted and takes effect, while the read
    of [VITE_API_URL] after it is what it was before. *)
Example repeatable_across_assignments :
  ∃ she fields, merged !! "ImportMetaEnv" = Some she ∧ env_client = VObject fields ∧
    Forall (λ op, check merged she op = true)
      [Assign "MODE" (VString "test"); Read "MODE"; Assign "VITE_SECRET" (VNumber 1)] ∧
    exec_all [Assign "MODE" (VString "test"); Read "MODE"; Assign "VITE_SECRET" (VNumber 1)]
      fields !! "MODE" = Some (VString "test") ∧
    fields !! "MODE" = Some (VString "development").
Proof.
  exists (default empty_shape (merged !! "ImportMetaEnv")),
         (match env_client with VObject f => f | _ => ∅ end).
  split_and!; [by vm_compute | reflexivity | | by vm_compute | by vm_compute].
  repeat constructor; by vm_compute.
Qed.

(** ** No run-time artifact *)

Lemma run_nil σ : run [] σ = σ.
Proof. reflexivity. Qed.

(** Whatever the statements, a file of directives and interface declarations
    emits nothing. *)
Lemma emit_nil (file : list statement) : emit file = [].
Proof.
  unfold emit. induction file as [|st file IH]; [done|].
  destruct st; simpl; exact IH.
Qed.

(** C7. The file emits no statement, so running what it contributes leaves
    every program state as it was: no binding is written (nothing is loaded,
    validated or given a default) and nothing is appended to the trace of
    outside effects. *)
Theorem file_has_no_runtime_effect (σ : state) :
  emit vite_env_d_ts = [] ∧
  run (emit vite_env_d_ts) σ = σ ∧
  store (run (emit vite_env_d_ts) σ) = store σ ∧
  trace (run (emit vite_env_d_ts) σ) = trace σ.
Proof. rewrite emit_nil, run_nil. done. Qed.

(** * Further properties of the file *)

(** ** When the file elaborates *)

Lemma merge_shape_closed old own :
  index own = None →
  (is_Some (merge_shape old own) ↔ props_agree (props old) (props own)).
Proof.
  intros Hidx. unfold merge_shape. rewrite Hidx. case_decide.
  - destruct (index old); split; eauto.
  - split; [by intros [? ?] | done].
Qed.

(** A declaration of one property and no index signature goes through exactly
    when the interface in scope does not have that property with another
    signature. *)
Lemma declare_single Σ d k p0 :
  declared_shape d = Some {| props := {[ k := p0 ]}; index := None |} →
  (is_Some (declare Σ d) ↔
   ∀ base p, Σ !! interface_name d = Some base → props base !! k = Some p → p = p0).
Proof.
  intros Hd. unfold declare. rewrite Hd. cbn [mbind option_bind].
  destruct (Σ !! interface_name d) as [old|]; [|split; [done | eauto]].
  set (own := {| props := {[ k := p0 ]}; index := None |}).
  assert (is_Some (merge_shape old own ≫= λ merged, Some (<[interface_name d := merged]> Σ))
          ↔ is_Some (merge_shape old own)) as ->.
  { destruct (merge_shape old own); cbn; split; intros [? ?]; eauto; done. }
  rewrite (merge_shape_closed old own) by done.
  unfold props_agree, own; cbn [props]. rewrite map_Forall_singleton. split.
  - intros [Hnone|Hsome] base p [= <-] Hp; congruence.
  - intros Hc. destruct (props old !! k) as [p|] eqn:Hp; [right|by left].
    by rewrite (Hc old p eq_refl Hp).
Qed.

Lemma elaborate_is_Some resolve :
  is_Some (elaborate resolve vite_env_d_ts) ↔
  ∃ Σ0, elaborate_statement resolve ∅ (ReferenceTypes "vite/client") = Some Σ0 ∧
    (∀ base p, Σ0 !! "ImportMetaEnv" = Some base →
       props base !! "VITE_API_URL" = Some p → p = VITE_API_URL) ∧
    (∀ base p, Σ0 !! "ImportMeta" = Some base →
       props base !! "env" = Some p → p = env).
Proof.
  split.
  - intros [Σ (Σ0 & Σ1 & H0 & H1 & H2)%elaborate_file]. exists Σ0. split_and!; [done | |].
    + apply (declare_single Σ0 ImportMetaEnv "VITE_API_URL" VITE_API_URL); [done|].
      by exists Σ1.
    + intros base p Hbase. rewrite <-(declare_other Σ0 Σ1 ImportMetaEnv) in Hbase by done.
      revert base p Hbase.
      apply (declare_single Σ1 ImportMeta "env" env); [done|]. by exists Σ.
  - intros (Σ0 & H0 & Henv & Hmeta).
    destruct (proj2 (declare_single Σ0 ImportMetaEnv "VITE_API_URL" VITE_API_URL eq_refl) Henv)
      as [Σ1 H1].
    destruct (proj2 (declare_single Σ1 ImportMeta "env" env eq_refl)) as [Σ H2].
    { intros base p Hbase. apply Hmeta.
      by rewrite <-(declare_other Σ0 Σ1 ImportMetaEnv). }
    exists Σ. apply elaborate_file. eauto.
Qed.

(** X1. The file does not elaborate against a library that declares one of its
    two properties differently: [VITE_API_URL] in [ImportMetaEnv], or [env] in
    [ImportMeta], with another [readonly] or [?] modifier, or with a primitive
    type other than the file's.  (A type given by name may denote the file's
    type under another name, so it is left out.) *)
Theorem elaboration_fails_on_conflict (resolve : string → option library)
    (lib : library) (Σlib : interfaces) (base : shape) (p : PropertySignature) :
  resolve "vite/client" = Some lib →
  fold_option declare ∅ lib = Some Σlib →
  (Σlib !! "ImportMetaEnv" = Some base ∧ props base !! "VITE_API_URL" = Some p ∧
     (prop_readonly p ≠ true ∨ prop_optional p ≠ true ∨
      (prop_type p ≠ TString ∧ ∀ n, prop_type p ≠ TRef n))) ∨
  (Σlib !! "ImportMeta" = Some base ∧ props base !! "env" = Some p ∧
     (prop_readonly p ≠ true ∨ prop_optional p ≠ false ∨
      ∀ n, prop_type p ≠ TRef n)) →
  elaborate resolve vite_env_d_ts = None.
Proof.
  intros Hres Hlib Hconflict.
  destruct (elaborate resolve vite_env_d_ts) as [Σ|] eqn:HΣ; [exfalso|done].
  destruct (proj1 (elaborate_is_Some resolve)) as (Σ0 & H0 & Henv & Hmeta);
    [by exists Σ|].
  cbn [elaborate_statement] in H0. rewrite Hres, Hlib in H0. injection H0 as <-.
  destruct Hconflict as [(Hbase & Hp & Hdiff)|(Hbase & Hp & Hdiff)].
  - rewrite (Henv base p Hbase Hp) in Hdiff.
    destruct Hdiff as [?|[?|[? _]]]; done.
  - rewrite (Hmeta base p Hbase Hp) in Hdiff.
    destruct Hdiff as [?|[?|Hn]]; [done | done |]. by apply (Hn "ImportMetaEnv").
Qed.

Lemma elaboration_fails_on_conflict_witness :
  elaborate resolved_conflicting vite_env_d_ts = None.
Proof.
  apply (elaboration_fails_on_conflict resolved_conflicting conflicting_client
           (default ∅ (fold_option declare ∅ conflicting_client))
           (default empty_shape
              (default ∅ (fold_option declare ∅ conflicting_client) !! "ImportMetaEnv"))
           {| prop_name := "VITE_API_URL"; prop_readonly := false;
              prop_optional := false; prop_type := TString |}).
  - reflexivity.
  - vm_compute. reflexivity.
  - left. split_and!; [vm_compute; reflexivity | vm_compute; reflexivity |].
    left. discriminate.
Defined.

(** The client library declares [env] as the file does and [VITE_API_URL] not
    at all, so the file elaborates against it. *)
Example client_is_compatible : is_Some (elaborate resolved vite_env_d_ts).
Proof. rewrite elaborate_merged. by eexists. Qed.

(** ** What the checker and the program see of [import.meta.env] *)

Lemma check_read_declared sh k p :
  props sh !! k = Some p → check_read sh k = Some (prop_type p, prop_optional p).
Proof. intros Hk. unfold check_read. by rewrite Hk. Qed.

Section Typed.
Context (resolve : string → option library) (Σ : interfaces).
Hypothesis HΣ : elaborate resolve vite_env_d_ts = Some Σ.

(** X2. In every build in which the file elaborates, with the library or
    without it, [import.meta.env] is typed: the checker gives [env] the type
    [ImportMetaEnv], never [undefined], and gives [VITE_API_URL] the type
    [string], possibly [undefined]. *)
Theorem import_meta_env_always_typed :
  ∃ shm she, Σ !! "ImportMeta" = Some shm ∧ Σ !! "ImportMetaEnv" = Some she ∧
    check_read shm "env" = Some (TRef "ImportMetaEnv", false) ∧
    check_read she "VITE_API_URL" = Some (TString, true).
Proof using HΣ.
  destruct elaborated_ImportMeta with (1 := HΣ) as (shm & Hshm & Hkm).
  destruct elaborated_ImportMetaEnv with (1 := HΣ) as (she & Hshe & Hke).
  exists shm, she. split_and!; [done | done | |].
  - by rewrite (check_read_declared shm "env" env).
  - by rewrite (check_read_declared she "VITE_API_URL" VITE_API_URL).
Qed.

(** X3. The chained read [import.meta.env.VITE_API_URL] on a conforming
    [import.meta] never fails on the way and ends in [undefined] or a string;
    what it ends in is what the [env] object holds under the key. *)
Theorem chained_read_VITE_API_URL (m : value) :
  has_type Σ m (TRef "ImportMeta") = true →
  ∃ fields, read_path m ["env"] = Some (VObject fields) ∧
    read_path m ["env"; "VITE_API_URL"] = Some (default VUndefined (fields !! "VITE_API_URL")) ∧
    (read_path m ["env"; "VITE_API_URL"] = Some VUndefined ∨
     ∃ s, read_path m ["env"; "VITE_API_URL"] = Some (VString s)).
Proof using HΣ.
  intros Hm. destruct (conforming_is_object _ _ _ Hm) as [fm ->].
  apply has_type_ref in Hm as (fm' & shm & [= <-] & Hshm & Hreq & Hall).
  destruct elaborated_ImportMeta with (1 := HΣ) as (shm' & Hshm' & Hk).
  assert (shm' = shm) as -> by congruence.
  destruct (required_present_lookup shm fm "env" env Hreq Hk eq_refl) as [e He].
  destruct (conforming_field Σ shm fm _ _ e Hall Hk He) as [[Hopt _]|Hte]; [done|].
  destruct (conforming_is_object _ _ _ Hte) as [fe ->].
  exists fe. unfold read_path. cbn [fold_option get mbind option_bind].
  rewrite He. cbn [default from_option id get mbind option_bind].
  split_and!; [done | done |].
  destruct (fe !! "VITE_API_URL") as [v|] eqn:Hv; cbn [from_option id]; [|by left].
  apply has_type_ref in Hte as (fe' & she & [= <-] & Hshe & _ & Halle).
  destruct elaborated_ImportMetaEnv with (1 := HΣ) as (she' & Hshe' & Hke).
  assert (she' = she) as -> by congruence.
  destruct (conforming_field Σ she fe _ _ v Halle Hke Hv) as [[_ ->]|Hs]; [by left|].
  right. apply has_type_string in Hs as [s ->]. by exists s.
Qed.

End Typed.

Lemma import_meta_env_always_typed_witness :
  ∃ shm she, merged !! "ImportMeta" = Some shm ∧ merged !! "ImportMetaEnv" = Some she ∧
    check_read shm "env" = Some (TRef "ImportMetaEnv", false) ∧
    check_read she "VITE_API_URL" = Some (TString, true).
Proof. apply (import_meta_env_always_typed resolved merged). exact elaborate_merged. Defined.

Lemma chained_read_VITE_API_URL_witness :
  ∃ fields, read_path meta_client ["env"] = Some (VObject fields) ∧
    read_path meta_client ["env"; "VITE_API_URL"]
      = Some (default VUndefined (fields !! "VITE_API_URL")) ∧
    (read_path meta_client ["env"; "VITE_API_URL"] = Some VUndefined ∨
     ∃ s, read_path meta_client ["env"; "VITE_API_URL"] = Some (VString s)).
Proof.
  apply (chained_read_VITE_API_URL resolved merged).
  - exact elaborate_merged.
  - vm_compute. reflexivity.
Defined.

(** Without the conformance the chained read does fail: from an [import.meta]
    that has no [env] the second step reads from [undefined]. *)
Example chained_read_needs_env :
  read_path (VObject ∅) ["env"] = Some VUndefined ∧
  read_path (VObject ∅) ["env"; "VITE_API_URL"] = None.
Proof. split; reflexivity. Qed.

(** ** What the file leaves alone *)

(** Merging in a declaration that does not name [k] and has no index signature
    changes neither the type [k] is read at nor whether it can be assigned. *)
Lemma merge_shape_other base own sh k :
  merge_shape base own = Some sh → props own !! k = None → index own = None →
  check_read sh k = check_read base k ∧ writable sh k = writable base k.
Proof.
  intros (_ & Hprops & Hindex)%merge_shape_Some Hk Hidx.
  assert (props sh !! k = props base !! k) as Hsame.
  { rewrite Hprops, lookup_union, Hk. by destruct (props base !! k). }
  assert (index sh = index base) as Hsameidx.
  { rewrite Hindex, Hidx. by destruct (index base). }
  unfold check_read, writable. by rewrite Hsame, Hsameidx.
Qed.

(** X4. Merged with a library, the file changes the typing of no key but its
    own: in [ImportMetaEnv] every key other than [VITE_API_URL], and in
    [ImportMeta] every key other than [env], is read at the type the library
    gives it (or rejected as the library rejects it) and can be assigned
    exactly when the library lets it. *)
Theorem augmentation_is_conservative (resolve : string → option library)
    (lib : library) (Σlib Σ : interfaces) :
  resolve "vite/client" = Some lib →
  fold_option declare ∅ lib = Some Σlib →
  elaborate resolve vite_env_d_ts = Some Σ →
  (∀ base, Σlib !! "ImportMetaEnv" = Some base →
     ∃ sh, Σ !! "ImportMetaEnv" = Some sh ∧
       ∀ k, k ≠ "VITE_API_URL" →
         check_read sh k = check_read base k ∧ writable sh k = writable base k) ∧
  (∀ base, Σlib !! "ImportMeta" = Some base →
     ∃ sh, Σ !! "ImportMeta" = Some sh ∧
       ∀ k, k ≠ "env" →
         check_read sh k = check_read base k ∧ writable sh k = writable base k).
Proof.
  intros Hres Hlib (Σ0 & Σ1 & H0 & H1 & H2)%elaborate_file.
  cbn [elaborate_statement] in H0. rewrite Hres, Hlib in H0. injection H0 as <-.
  split.
  - intros base Hbase.
    destruct (declare_same _ _ _ H1) as (own & sh & Hown & Hsh & Hmerge).
    rewrite declared_ImportMetaEnv in Hown. injection Hown as <-.
    change (interface_name ImportMetaEnv) with "ImportMetaEnv" in Hsh, Hmerge.
    rewrite Hbase in Hmerge. exists sh. split.
    + by rewrite (declare_other Σ1 Σ ImportMeta).
    + intros k Hk. apply (merge_shape_other base ImportMetaEnv_shape sh k); [done | | done].
      unfold ImportMetaEnv_shape; cbn [props]. by apply lookup_singleton_ne.
  - intros base Hbase.
    destruct (declare_same _ _ _ H2) as (own & sh & Hown & Hsh & Hmerge).
    rewrite declared_ImportMeta in Hown. injection Hown as <-.
    change (interface_name ImportMeta) with "ImportMeta" in Hsh, Hmerge.
    rewrite (declare_other Σlib Σ1 ImportMetaEnv), Hbase in Hmerge by done.
    exists sh. split; [done|].
    intros k Hk. apply (merge_shape_other base ImportMeta_shape sh k); [done | | done].
    unfold ImportMeta_shape; cbn [props]. by apply lookup_singleton_ne.
Qed.

Lemma augmentation_is_conservative_witness :
  (∀ base, client_interfaces !! "ImportMetaEnv" = Some base →
     ∃ sh, merged !! "ImportMetaEnv" = Some sh ∧
       ∀ k, k ≠ "VITE_API_URL" →
         check_read sh k = check_read base k ∧ writable sh k = writable base k) ∧
  (∀ base, client_interfaces !! "ImportMeta" = Some base →
     ∃ sh, merged !! "ImportMeta" = Some sh ∧
       ∀ k, k ≠ "env" →
         check_read sh k = check_read base k ∧ writable sh k = writable base k).
Proof.
  apply (augmentation_is_conservative resolved client client_interfaces merged).
  - reflexivity.
  - vm_compute. reflexivity.
  - exact elaborate_merged.
Defined.

(** Its own key the file does change: under the client library
    [VITE_API_URL] was an index-signature key, read at [any] and assignable;
    merged it is read at [string] and is read-only. *)
Example own_key_is_narrowed :
  check_read client_env_shape "VITE_API_URL" = Some (TAny, false) ∧
  writable client_env_shape "VITE_API_URL" = true ∧
  ∃ sh, merged !! "ImportMetaEnv" = Some sh ∧
    check_read sh "VITE_API_URL" = Some (TString, true) ∧
    writable sh "VITE_API_URL" = false.
Proof.
  split_and!; [by vm_compute | by vm_compute |].
  exists (default empty_shape (merged !! "ImportMetaEnv")). vm_compute. done.
Qed.

(** ** The order of the two declarations *)

Lemma declare_comm Σ d1 d2 :
  interface_name d1 ≠ interface_name d2 →
  (declare Σ d1 ≫= λ Σ', declare Σ' d2) = (declare Σ d2 ≫= λ Σ', declare Σ' d1).
Proof.
  intros Hne. unfold declare.
  destruct (declared_shape d1) as [s1|], (declared_shape d2) as [s2|];
    cbn [mbind option_bind]; try done.
  - assert (∀ (x : shape) n, n ≠ interface_name d1 →
              <[interface_name d1 := x]> Σ !! n = Σ !! n) as L1
      by (intros; by apply lookup_insert_ne).
    assert (∀ (x : shape) n, n ≠ interface_name d2 →
              <[interface_name d2 := x]> Σ !! n = Σ !! n) as L2
      by (intros; by apply lookup_insert_ne).
    destruct (Σ !! interface_name d1) as [o1|] eqn:E1;
      [destruct (merge_shape o1 s1) as [x1|] eqn:M1|];
      (destruct (Σ !! interface_name d2) as [o2|] eqn:E2;
        [destruct (merge_shape o2 s2) as [x2|] eqn:M2|]);
      cbn [mbind option_bind];
      rewrite ?L1, ?L2, ?E1, ?E2 by done; cbn [mbind option_bind];
      rewrite ?M1, ?M2; cbn [mbind option_bind];
      try done; by rewrite insert_insert_ne.
  - destruct (Σ !! interface_name d1) as [o1|]; cbn [mbind option_bind]; [|done].
    by destruct (merge_shape o1 s1).
  - destruct (Σ !! interface_name d2) as [o2|]; cbn [mbind option_bind]; [|done].
    by destruct (merge_shape o2 s2).
Qed.

Lemma fold_option_two {A B} (f : A → B → option A) (a : A) (x y : B) :
  fold_option f a [x; y] = f a x ≫= λ a', f a' y.
Proof.
  cbn [fold_option]. destruct (f a x) as [a'|]; cbn [mbind option_bind]; [|done].
  by destruct (f a' y).
Qed.

(** X5. The order of the two declarations does not matter: with [ImportMeta],
    which refers to [ImportMetaEnv], declared first, the file elaborates to
    the same interfaces, and fails in the same builds. *)
Theorem declaration_order_irrelevant (resolve : string → option library) :
  elaborate resolve
    [ReferenceTypes "vite/client"; DeclareInterface ImportMeta; DeclareInterface ImportMetaEnv]
  = elaborate resolve vite_env_d_ts.
Proof.
  unfold elaborate, vite_env_d_ts.
  change (fold_option (elaborate_statement resolve) ∅ (?s :: ?l))
    with (elaborate_statement resolve ∅ s ≫= λ a', fold_option (elaborate_statement resolve) a' l).
  destruct (elaborate_statement resolve ∅ _) as [Σ0|]; cbn [mbind option_bind]; [|done].
  rewrite !fold_option_two. cbn [elaborate_statement].
  by apply declare_comm.
Qed.

(** ** Reading a key the file does not declare *)

Lemma read_accepted_undeclared sh k :
  check_read sh k = None →
  (read_accepted sh k = false ↔ k ∉ Object_members).
Proof.
  intros Hk. unfold read_accepted. rewrite Hk.
  rewrite bool_decide_eq_false_2 by (by intros [? ?]).
  cbn [orb]. by rewrite bool_decide_eq_false.
Qed.

Lemma ImportMetaEnv_shape_other k :
  k ≠ "VITE_API_URL" → check_read ImportMetaEnv_shape k = None.
Proof.
  intros Hk. unfold check_read, ImportMetaEnv_shape; cbn [props index].
  by rewrite lookup_singleton_ne.
Qed.

(** C3, as amended.  For every key [k] other than [VITE_API_URL], in every
    build in which the file elaborates:
    - when line 1 brings no [ImportMetaEnv] into scope (the directive does not
      resolve, or the library has no such interface), the checker rejects the
      read of [k] unless [k] is one of the members every object has from
      [Object];
    - when line 1 brings one in, the checker accepts the read of [k] exactly
      when it accepts it on the library's own interface: the file neither
      adds nor removes a verdict;
    - at run time the read from a conforming environment object does not fail. *)
Theorem undeclared_key_read (resolve : string → option library) (Σ : interfaces)
    (k : string) :
  elaborate resolve vite_env_d_ts = Some Σ →
  k ≠ "VITE_API_URL" →
  ∃ sh, Σ !! "ImportMetaEnv" = Some sh ∧
    (resolve "vite/client" = None →
       (read_accepted sh k = false ↔ k ∉ Object_members)) ∧
    (∀ lib Σlib, resolve "vite/client" = Some lib →
       fold_option declare ∅ lib = Some Σlib →
       match Σlib !! "ImportMetaEnv" with
       | Some base => read_accepted sh k = read_accepted base k
       | None => read_accepted sh k = false ↔ k ∉ Object_members
       end) ∧
    (∀ e, has_type Σ e (TRef "ImportMetaEnv") = true → is_Some (get e k)).
Proof.
  intros (Σ0 & Σ1 & H0 & H1 & H2)%elaborate_file Hk.
  destruct (declare_same _ _ _ H1) as (own & sh & Hown & Hsh & Hmerge).
  rewrite declared_ImportMetaEnv in Hown. injection Hown as <-.
  change (interface_name ImportMetaEnv) with "ImportMetaEnv" in Hsh, Hmerge.
  cbn [elaborate_statement] in H0.
  exists sh. split_and!.
  - by rewrite (declare_other Σ1 Σ ImportMeta).
  - intros Hres. rewrite Hres in H0. injection H0 as <-.
    rewrite lookup_empty in Hmerge. subst sh.
    by apply read_accepted_undeclared, ImportMetaEnv_shape_other.
  - intros lib Σlib Hres Hlib. rewrite Hres, Hlib in H0. injection H0 as <-.
    destruct (Σlib !! "ImportMetaEnv") as [base|].
    + destruct (merge_shape_other base ImportMetaEnv_shape sh k) as [Hread _];
        [done | | done |].
      { unfold ImportMetaEnv_shape; cbn [props]. by apply lookup_singleton_ne. }
      unfold read_accepted. by rewrite Hread.
    + subst sh. by apply read_accepted_undeclared, ImportMetaEnv_shape_other.
  - intros e [fields ->]%conforming_is_object. by eexists.
Qed.

Lemma undeclared_key_read_witness :
  ∃ sh, merged !! "ImportMetaEnv" = Some sh ∧
    (resolved "vite/client" = None →
       (read_accepted sh "VITE_SECRET" = false ↔ "VITE_SECRET" ∉ Object_members)) ∧
    (∀ lib Σlib, resolved "vite/client" = Some lib →
       fold_option declare ∅ lib = Some Σlib →
       match Σlib !! "ImportMetaEnv" with
       | Some base => read_accepted sh "VITE_SECRET" = read_accepted base "VITE_SECRET"
       | None => read_accepted sh "VITE_SECRET" = false ↔ "VITE_SECRET" ∉ Object_members
       end) ∧
    (∀ e, has_type merged e (TRef "ImportMetaEnv") = true → is_Some (get e "VITE_SECRET")).
Proof.
  apply (undeclared_key_read resolved merged "VITE_SECRET").
  - exact elaborate_merged.
  - discriminate.
Defined.

(** The claim as it stands fails twice.  In the build line 1 names, the merged
    interface has the library's index signature and the read of a key nobody
    declares is accepted, at type [any].  And in the build without the
    library, the read of an [Object] member is accepted on the declared shape
    although the shape does not declare it. *)
Lemma undeclared_key_read_accepted :
  (∃ sh, merged !! "ImportMetaEnv" = Some sh ∧
     "VITE_SECRET" ≠ "VITE_API_URL" ∧
     props sh !! "VITE_SECRET" = None ∧
     check_read sh "VITE_SECRET" = Some (TAny, false) ∧
     read_accepted sh "VITE_SECRET" = true) ∧
  (standalone !! "ImportMetaEnv" = Some ImportMetaEnv_shape ∧
   "toString" ≠ "VITE_API_URL" ∧
   props ImportMetaEnv_shape !! "toString" = None ∧
   read_accepted ImportMetaEnv_shape "toString" = true).
Proof.
  split.
  - exists (default empty_shape (merged !! "ImportMetaEnv")).
    split_and!; [by vm_compute | discriminate | by vm_compute..].
  - split_and!; [reflexivity | discriminate | by vm_compute..].
Qed.
